(** * genkinds.py: generation of the Java [Kind] enumeration

    A shallow embedding of [src/api/java/genkinds.py] (CVC4).  The script
    walks the ordered mapping [parser.kinds], appends one enum constant per
    entry to a fixed header, appends a fixed footer and writes the result to
    a file.  The footer is Java source: the static initialiser, [fromInt]
    and [getValue] of the generated enum are embedded here as well, and they
    are run on the constants read back from the generated text. *)

From Stdlib Require Import ZArith Ascii String List Lia.
From Stdlib Require Import Decimal DecimalString DecimalZ DecimalPos.
From stdpp Require Import gmap strings list.

Local Open Scope string_scope.
Local Open Scope Z_scope.

(** stdpp blocks the unfolding of string concatenation; the proofs below
    compute with it on constructors. *)
#[local] Arguments String.append !s1 s2 : simpl nomatch.

(** ** Characters and strings *)

Module Text.

(** The newline character, [\n]. *)
Definition newline : ascii := "010"%char.

(** The double quote character, which appears inside the Java footer. *)
Definition dquote : ascii := "034"%char.

Definition nl : string := String newline EmptyString.
Definition dq : string := String dquote EmptyString.

(** [unlines ls]: every line of [ls] followed by a newline, as in the body
    of a Python triple-quoted literal that ends with a newline. *)
Fixpoint unlines (ls : list string) : string :=
  match ls with
  | [] => EmptyString
  | l :: ls' => l +:+ nl +:+ unlines ls'
  end.

(** [str(n)] of a Python int, which is also what [str.format] substitutes
    for an int field and what Java's string concatenation produces for an
    [int]: decimal digits, a leading minus sign for negative numbers. *)
Definition str_int (n : Z) : string := NilZero.string_of_int (Z.to_int n).

(** Reading such a numeral back. *)
Definition read_int (s : string) : option Z :=
  Z.of_int <$> NilZero.int_of_string s.

(** [strip_prefix p s = Some r] exactly when [s = p +:+ r]. *)
Fixpoint strip_prefix (p s : string) : option string :=
  match p with
  | EmptyString => Some s
  | String a p' =>
      match s with
      | EmptyString => None
      | String b s' => if Ascii.eqb a b then strip_prefix p' s' else None
      end
  end.

(** [read_until c s]: the text before the first [c] of [s] and the text
    after it. *)
Fixpoint read_until (c : ascii) (s : string) : option (string * string) :=
  match s with
  | EmptyString => None
  | String a s' =>
      if Ascii.eqb a c then Some (EmptyString, s')
      else match read_until c s' with
           | Some (p, r) => Some (String a p, r)
           | None => None
           end
  end.

(** [lines s]: the pieces of [s] between newlines (Python's
    [s.split("\n")]). *)
Fixpoint lines (s : string) : list string :=
  match s with
  | EmptyString => [EmptyString]
  | String a s' =>
      if Ascii.eqb a newline then EmptyString :: lines s'
      else match lines s' with
           | l :: ls => String a l :: ls
           | [] => [String a EmptyString]
           end
  end.

(** The shape of a Java identifier in ASCII: a letter, [_] or [$], then
    letters, digits, [_] or [$].  This is a test of the characters only:
    reserved words pass it, and identifiers with letters outside ASCII do
    not. *)
Definition ident_start (c : ascii) : bool :=
  let n := nat_of_ascii c in
  ((65 <=? n)%nat && (n <=? 90)%nat) || ((97 <=? n)%nat && (n <=? 122)%nat)
  || (n =? 95)%nat || (n =? 36)%nat.

Definition ident_part (c : ascii) : bool :=
  let n := nat_of_ascii c in
  ident_start c || ((48 <=? n)%nat && (n <=? 57)%nat).

Fixpoint all_chars (p : ascii -> bool) (s : string) : bool :=
  match s with
  | EmptyString => true
  | String a s' => p a && all_chars p s'
  end.

Definition is_identifier (s : string) : bool :=
  match s with
  | EmptyString => false
  | String a s' => ident_start a && all_chars ident_part s'
  end.

(** The characters of a printed integer: digits and the minus sign. *)
Definition numeral_char (c : ascii) : bool :=
  let n := nat_of_ascii c in
  ((48 <=? n)%nat && (n <=? 57)%nat) || (n =? 45)%nat.

(** [lacks c s]: the character [c] does not occur in [s]. *)
Definition lacks (c : ascii) (s : string) : bool :=
  all_chars (fun a => negb (Ascii.eqb a c)) s.

(** Concatenation of a list of strings. *)
Definition join (ls : list string) : string :=
  fold_right String.append EmptyString ls.

End Text.

Import Text.

(** ** The Python side: [genkinds.py] *)

Module Genkinds.

(** [KINDS_JAVA_TOP] (lines 35-43).  The line [public enum Kind ] ends
    with a space in the source. *)
Definition KINDS_JAVA_TOP : string :=
  unlines
    [ "package cvc;";
      "";
      "import java.util.HashMap;";
      "import java.util.Map;";
      "";
      "public enum Kind ";
      "{" ].

(** [KINDS_JAVA_BOTTOM] (lines 45-79). *)
Definition KINDS_JAVA_BOTTOM : string :=
  unlines
    [ ";";
      "";
      "  /* the int value of the kind */";
      "  private int value;";
      "  private static Map<Integer, Kind> kindMap = new HashMap<>();";
      "  private Kind(int value)";
      "  {";
      "    this.value = value;";
      "  }";
      "";
      "  static";
      "  {";
      "    for (Kind kind : Kind.values())";
      "    {";
      "      kindMap.put(kind.getValue(), kind);";
      "    }";
      "  }";
      "";
      "  public static Kind fromInt(int value) throws CVCApiException";
      "  {";
      "    if (value < INTERNAL_KIND.value || value > LAST_KIND.value)";
      "    {";
      "      throw new CVCApiException(" +:+ dq +:+ "Kind value " +:+ dq
        +:+ " + value + " +:+ dq +:+ " is outside the valid range [" +:+ dq;
      "          + INTERNAL_KIND.value + " +:+ dq +:+ "," +:+ dq
        +:+ " + LAST_KIND.value + " +:+ dq +:+ "]" +:+ dq +:+ ");";
      "    }";
      "    return kindMap.get(value);";
      "  }";
      "";
      "  public int getValue()";
      "  {";
      "    return value;";
      "  }";
      "}" ].

(** *** The ordered mapping [parser.kinds]

    [KindsParser] lives in [parsekinds.py]; [gen_java] only uses its
    attribute [kinds], an insertion-ordered Python dict from strings to
    strings.  A dict is kept as the list of its items in insertion
    order.  The keys of a dict are pairwise distinct; the list does not
    enforce it, and a result that needs it says so. *)
Definition dict : Type := list (string * string).

(** [d.items()] *)
Definition dict_items (d : dict) : list (string * string) := d.

Record KindsParser := { kinds : dict }.

(** *** Rendering (lines 86-91) *)

(** ["  {name}({enum_value}),\n".format(name=..., enum_value=...)] *)
Definition format_member (name : string) (enum_value : Z) : string :=
  "  " +:+ name +:+ "(" +:+ str_int enum_value +:+ ")," +:+ nl.

(** One iteration of the [for] loop on the pair of variables
    [(code, enum_value)]: the entry is unpacked into [kind, name] and
    [kind] is passed for the field called [name] of the format string. *)
Definition loop_body (st : string * Z) (entry : string * string) : string * Z :=
  let '(code, enum_value) := st in
  let '(kind, name) := entry in
  (code +:+ format_member kind enum_value, enum_value + 1).

(** The value of [code] when it is handed to [f.write]. *)
Definition render (parser : KindsParser) : string :=
  let code := KINDS_JAVA_TOP in
  let enum_value := -2 in
  let '(code, enum_value) :=
    fold_left loop_body (dict_items (kinds parser)) (code, enum_value) in
  code +:+ KINDS_JAVA_BOTTOM.

(** Code assignment as the specification words it: the [k]-th name gets
    [start + k]. *)
Definition assign_codes (start : Z) (names : list string) : list (string * Z) :=
  imap (fun k name => (name, start + Z.of_nat k)) names.

(** The line of a constant without its newline, and the text of a list of
    constants. *)
Definition constant_line (d : string * Z) : string :=
  "  " +:+ fst d +:+ "(" +:+ str_int (snd d) +:+ "),".

Definition constants_text (decls : list (string * Z)) : string :=
  join ((fun d => constant_line d +:+ nl) <$> decls).

(** The keys of the mapping, in order. *)
Definition dict_keys (d : dict) : list string := fst <$> d.

(** *** The file system as [gen_java] sees it

    [gen_java] opens its target for writing, writes once and closes.  The
    world is the content of every file, the log of the calls made so far
    and the failure, if any, that the operating system has in store.  A
    file is identified by the path it is opened with; two paths that name
    one file are not related. *)
Inductive io_event : Type :=
| EvOpen (path mode : string)
| EvWrite (path data : string)
| EvClose (path : string).

(** [OpenFails]: [open] raises.  [WriteFails n]: the write (or the flush
    on close) raises after [n] characters have reached the file.  The model
    raises at [f.write] in both cases; an interpreter that buffers the text
    raises at [f.close()] instead, with the same exception and the same
    content of the file. *)
Inductive io_fault : Type :=
| OpenFails
| WriteFails (written : nat).

Record world : Type := World {
  files : gmap string string;
  log : list io_event;
  fault : option io_fault
}.

(** The exceptions of a run.  [OSError] is raised by the file system.
    Modelled from the spec: [MalformedInputKind], the error of the Kind
    Source when it constructs the table; nothing in [genkinds.py] raises
    it. *)
Inductive py_exn : Type :=
| OSError (path : string)
| MalformedInputKind.

Inductive outcome (A : Type) : Type :=
| Normal (a : A)
| Raised (e : py_exn).
Arguments Normal {A} a.
Arguments Raised {A} e.

(** State and exceptions. *)
Definition IO (A : Type) : Type := world -> outcome A * world.

#[global] Instance IO_ret : MRet IO := fun A a w => (Normal a, w).
#[global] Instance IO_bind : MBind IO := fun A B k m w =>
  match m w with
  | (Normal a, w') => k a w'
  | (Raised e, w') => (Raised e, w')
  end.

Record file : Type := { file_path : string }.

(** [open(path, "w")]: creates the file or truncates it to length zero;
    when it raises, the file is left as it was. *)
Definition open_w (path : string) : IO file := fun w =>
  let log' := (log w ++ [EvOpen path "w"])%list in
  match fault w with
  | Some OpenFails => (Raised (OSError path), World (files w) log' (fault w))
  | _ => (Normal {| file_path := path |},
          World (<[path := EmptyString]> (files w)) log' (fault w))
  end.

(** [f.write(data)]: appends at the current position, the end of what
    this handle has written so far. *)
Definition file_write (f : file) (data : string) : IO unit := fun w =>
  let path := file_path f in
  let old := default EmptyString (files w !! path) in
  let log' := (log w ++ [EvWrite path data])%list in
  match fault w with
  | Some (WriteFails n) =>
      (Raised (OSError path),
       World (<[path := old +:+ substring 0 n data]> (files w)) log' (fault w))
  | _ => (Normal tt, World (<[path := old +:+ data]> (files w)) log' (fault w))
  end.

(** [f.close()] *)
Definition file_close (f : file) : IO unit := fun w =>
  (Normal tt, World (files w) (log w ++ [EvClose (file_path f)])%list (fault w)).

(** *** [gen_java] (lines 84-93) *)
Definition gen_java (parser : KindsParser) (filename : string) : IO unit :=
  f ← open_w filename;
  let code := render parser in
  file_write f code;;
  file_close f.

End Genkinds.

Import Genkinds.

(** ** The Java side: the generated [Kind.java] *)

Module Java.

(** *** Reading the generated text

    An enum constant of the generated file is a line of two spaces, an
    identifier, an integer literal in parentheses and a comma.  The reader
    follows the layout that [gen_java] emits, character by character; the
    Java grammar also allows white space and comments between the tokens,
    so a line that this reader refuses may still be Java. *)
Definition read_constant (line : string) : option (string * Z) :=
  body ← strip_prefix "  " line;
  '(name, r1) ← read_until "(" body;
  '(num, r2) ← read_until ")" r1;
  if is_identifier name && String.eqb r2 ","
  then v ← read_int num; Some (name, v)
  else None.

(** The constants run up to the line that holds the semicolon; what
    follows that line is returned as well. *)
Fixpoint read_constants (ls : list string)
  : option (list (string * Z) * list string) :=
  match ls with
  | [] => None
  | l :: ls' =>
      if String.eqb l ";" then Some ([], ls')
      else
        c ← read_constant l;
        '(cs, rest) ← read_constants ls';
        Some (c :: cs, rest)
  end.

(** The constants declared by a text that consists of the header, a list
    of constants and the footer. *)
Definition declared_constants (text : string) : option (list (string * Z)) :=
  after_top ← strip_prefix KINDS_JAVA_TOP text;
  '(cs, rest) ← read_constants (lines after_top);
  if bool_decide (rest = List.tl (lines KINDS_JAVA_BOTTOM)) then Some cs else None.

(** *** The enum

    An enum constant is an object with its position, its name and the
    field [value] set by the constructor [Kind(int value)].  [value] is a
    Java [int]; the class never computes with it, it only compares and
    prints it. *)
Record Kind : Type := mkKind { ordinal : nat; name : string; value : Z }.

#[global] Instance Kind_eq_dec : EqDecision Kind.
Proof. solve_decision. Defined.

(** [Kind.values()]: the constants in declaration order. *)
Definition values_of (decls : list (string * Z)) : list Kind :=
  imap (fun i d => mkKind i (fst d) (snd d)) decls.

(** [getValue()] *)
Definition getValue (kind : Kind) : Z := value kind.

(** The static initialiser: [kindMap.put(kind.getValue(), kind)] for
    every [kind] of [Kind.values()], in order, on an empty [HashMap]. *)
Definition static_init (vals : list Kind) : gmap Z Kind :=
  fold_left (fun kindMap kind => <[getValue kind := kind]> kindMap) vals ∅.

(** A constant referred to by name. *)
Definition resolve (nm : string) (vals : list Kind) : option Kind :=
  List.find (fun k => String.eqb (name k) nm) vals.

(** The loaded class: its constants, the two constants that [fromInt]
    names, and [kindMap] as the static initialiser leaves it. *)
Record Kind_class : Type := {
  Kind_values : list Kind;
  INTERNAL_KIND : Kind;
  LAST_KIND : Kind;
  kindMap : gmap Z Kind
}.

(** The class that a generated text defines.  There is none when the text
    is not of the generated shape, when two constants have the same name,
    or when [INTERNAL_KIND] or [LAST_KIND], which the body of [fromInt]
    mentions, is not among the constants: the compiler rejects such a
    file.  These conditions are necessary, not sufficient: the compiler
    also rejects a constant named by a reserved word or named like a field
    of the footer ([value], [kindMap]), and a literal outside [int].  The
    results below therefore take [load text = Some C] as a hypothesis
    about a class that exists, and none concludes it. *)
Definition load (text : string) : option Kind_class :=
  decls ← declared_constants text;
  if bool_decide (NoDup (fst <$> decls)) then
    let vals := values_of decls in
    lo ← resolve "INTERNAL_KIND" vals;
    hi ← resolve "LAST_KIND" vals;
    Some {| Kind_values := vals; INTERNAL_KIND := lo; LAST_KIND := hi;
            kindMap := static_init vals |}
  else None.

(** A call either returns or throws [CVCApiException] with a message. *)
Inductive result (A : Type) : Type :=
| Returns (a : A)
| Throws (message : string).
Arguments Returns {A} a.
Arguments Throws {A} message.

(** The message built by [fromInt]. *)
Definition range_message (v lo hi : Z) : string :=
  "Kind value " +:+ str_int v +:+ " is outside the valid range ["
    +:+ str_int lo +:+ "," +:+ str_int hi +:+ "]".

(** [fromInt]; [kindMap.get] returns [null], here [None], for a key that
    is not in the map. *)
Definition fromInt (C : Kind_class) (v : Z) : result (option Kind) :=
  if (v <? value (INTERNAL_KIND C)) || (v >? value (LAST_KIND C))
  then Throws (range_message v (value (INTERNAL_KIND C)) (value (LAST_KIND C)))
  else Returns (kindMap C !! v).

End Java.

Import Java.

(** ** Sample inputs *)

Module Samples.

(** The first kinds of the real header and its last one: the mapping sends
    the name in the header to the name used by the Python bindings. *)
Definition sentinels : KindsParser :=
  {| kinds := [ ("INTERNAL_KIND", "InternalKind");
                ("UNDEFINED_KIND", "UndefinedKind");
                ("NULL_EXPR", "NullExpr");
                ("LAST_KIND", "LastKind") ] |}.

Definition and_or_not : KindsParser :=
  {| kinds := [ ("AND", "And"); ("OR", "Or"); ("NOT", "Not") ] |}.

(** A kind declared before [INTERNAL_KIND]. *)
Definition shifted : KindsParser :=
  {| kinds := [ ("A", "A");
                ("INTERNAL_KIND", "InternalKind");
                ("LAST_KIND", "LastKind") ] |}.

Definition renamed : KindsParser := {| kinds := [ ("AND", "And") ] |}.

(** A mapping object whose [items()] yields the same name twice. *)
Definition duplicated : KindsParser :=
  {| kinds := [ ("AND", "And"); ("AND", "And") ] |}.

Definition empty : KindsParser := {| kinds := [] |}.

End Samples.

Import Samples.

(** ** The script: lines 96-113 *)

Module Main.




End Main.

Import Main.

(** ** The Kind Source *)

Module KindSource.





End KindSource.

Import KindSource.

(** ** Further sample inputs *)

Module MoreSamples.

(** [LAST_KIND] declared before [INTERNAL_KIND]. *)
Definition reversed : KindsParser :=
  {| kinds := [ ("LAST_KIND", "LastKind");
                ("AND", "And");
                ("INTERNAL_KIND", "InternalKind") ] |}.

(** The class of [sentinels]. *)
Definition sentinels_class : Kind_class :=
  let vals :=
    values_of [ ("INTERNAL_KIND", -2); ("UNDEFINED_KIND", -1);
                ("NULL_EXPR", 0); ("LAST_KIND", 1) ] in
  {| Kind_values := vals;
     INTERNAL_KIND := mkKind 0 "INTERNAL_KIND" (-2);
     LAST_KIND := mkKind 3 "LAST_KIND" 1;
     kindMap := static_init vals |}.

(** The class of [shifted]. *)
Definition shifted_class : Kind_class :=
  let vals :=
    values_of [ ("A", -2); ("INTERNAL_KIND", -1); ("LAST_KIND", 0) ] in
  {| Kind_values := vals;
     INTERNAL_KIND := mkKind 1 "INTERNAL_KIND" (-1);
     LAST_KIND := mkKind 2 "LAST_KIND" 0;
     kindMap := static_init vals |}.

(** The class of [reversed]. *)
Definition reversed_class : Kind_class :=
  let vals :=
    values_of [ ("LAST_KIND", -2); ("AND", -1); ("INTERNAL_KIND", 0) ] in
  {| Kind_values := vals;
     INTERNAL_KIND := mkKind 2 "INTERNAL_KIND" 0;
     LAST_KIND := mkKind 0 "LAST_KIND" (-2);
     kindMap := static_init vals |}.

End MoreSamples.

Import MoreSamples.

Example str_int_samples :
  str_int (-2) = "-2" /\ str_int 0 = "0" /\ str_int 10 = "10" /\ str_int (-123) = "-123".
Proof. repeat split; reflexivity. Qed.

Example format_member_sample : format_member "AND" (-2) = "  AND(-2)," +:+ nl.
Proof. reflexivity. Qed.

(** ** Facts about the text functions *)

Section TextFacts.

Lemma append_assoc (a b c : string) : (a +:+ b) +:+ c = a +:+ (b +:+ c).
Proof. induction a as [|x a IH]; simpl; [reflexivity | now rewrite IH]. Qed.

Lemma append_nil_r (a : string) : a +:+ EmptyString = a.
Proof. induction a as [|x a IH]; simpl; [reflexivity | now rewrite IH]. Qed.

Lemma strip_prefix_app (p r : string) : strip_prefix p (p +:+ r) = Some r.
Proof.
  induction p as [|a p IH]; simpl; [reflexivity |].
  now rewrite Ascii.eqb_refl.
Qed.

Lemma read_until_app (c : ascii) (p r : string) :
  lacks c p = true -> read_until c (p +:+ String c r) = Some (p, r).
Proof.
  induction p as [|a p IH]; simpl; intros H.
  - now rewrite Ascii.eqb_refl.
  - apply andb_prop in H as [Ha Hp].
    destruct (Ascii.eqb a c); [discriminate |].
    now rewrite (IH Hp).
Qed.

Lemma lines_nonempty (s : string) : lines s <> [].
Proof.
  induction s as [|a s IH]; simpl; [discriminate |].
  destruct (Ascii.eqb a newline); [discriminate |].
  destruct (lines s); [contradiction | discriminate].
Qed.

Lemma lines_app_nl (l r : string) :
  lacks newline l = true -> lines (l +:+ String newline r) = l :: lines r.
Proof.
  induction l as [|a l IH]; simpl; intros H.
  - reflexivity.
  - apply andb_prop in H as [Ha Hl].
    destruct (Ascii.eqb a newline); [discriminate |].
    now rewrite (IH Hl).
Qed.

Lemma all_chars_app (p : ascii -> bool) (a b : string) :
  all_chars p (a +:+ b) = all_chars p a && all_chars p b.
Proof.
  induction a as [|x a IH]; simpl; [reflexivity |].
  now rewrite IH, andb_assoc.
Qed.

Lemma all_chars_impl (p q : ascii -> bool) (s : string) :
  (forall a, p a = true -> q a = true) ->
  all_chars p s = true -> all_chars q s = true.
Proof.
  intros Hpq. induction s as [|x s IH]; simpl; [reflexivity |].
  intros H. apply andb_prop in H as [Hx Hs].
  now rewrite (Hpq _ Hx), (IH Hs).
Qed.

Lemma ident_start_part (c : ascii) : ident_start c = true -> ident_part c = true.
Proof. unfold ident_part. now intros ->. Qed.

Lemma ident_part_not (c : ascii) :
  ident_part c = true ->
  negb (Ascii.eqb c "(") = true /\ negb (Ascii.eqb c newline) = true.
Proof.
  destruct c as [[|] [|] [|] [|] [|] [|] [|] [|]]; vm_compute;
    intros H; try discriminate H; split; reflexivity.
Qed.

Lemma numeral_char_not (c : ascii) :
  numeral_char c = true ->
  negb (Ascii.eqb c ")") = true /\ negb (Ascii.eqb c newline) = true.
Proof.
  destruct c as [[|] [|] [|] [|] [|] [|] [|] [|]]; vm_compute;
    intros H; try discriminate H; split; reflexivity.
Qed.

Lemma identifier_chars (s : string) :
  is_identifier s = true -> all_chars ident_part s = true.
Proof.
  destruct s as [|a s]; simpl; [discriminate |].
  intros H. apply andb_prop in H as [Ha Hs].
  now rewrite (ident_start_part _ Ha), Hs.
Qed.

Lemma identifier_lacks (s : string) :
  is_identifier s = true -> lacks "(" s = true /\ lacks newline s = true.
Proof.
  intros H%identifier_chars. split.
  - eapply all_chars_impl; [| exact H]. intros a Ha. apply (ident_part_not a Ha).
  - eapply all_chars_impl; [| exact H]. intros a Ha. apply (ident_part_not a Ha).
Qed.

Lemma uint_chars (d : uint) :
  all_chars numeral_char (NilEmpty.string_of_uint d) = true.
Proof. induction d; simpl; auto. Qed.

Lemma str_int_chars (z : Z) : all_chars numeral_char (str_int z) = true.
Proof.
  unfold str_int, NilZero.string_of_int, NilZero.string_of_uint.
  destruct z as [|p|p]; simpl.
  - reflexivity.
  - destruct (Pos.to_uint p); try reflexivity; apply (uint_chars _).
  - destruct (Pos.to_uint p) eqn:E; try reflexivity;
      rewrite <- E; apply (uint_chars _).
Qed.

Lemma str_int_lacks (z : Z) :
  lacks ")" (str_int z) = true /\ lacks newline (str_int z) = true.
Proof.
  pose proof (str_int_chars z) as H. split.
  - eapply all_chars_impl; [| exact H]. intros a Ha. apply (numeral_char_not a Ha).
  - eapply all_chars_impl; [| exact H]. intros a Ha. apply (numeral_char_not a Ha).
Qed.

(** Reading a printed integer gives the integer back. *)
Lemma read_int_str_int (z : Z) : read_int (str_int z) = Some z.
Proof.
  unfold read_int, str_int.
  rewrite NilZero.isi.
  - simpl. now rewrite DecimalZ.of_to.
  - destruct z as [|p|p]; simpl; try discriminate.
    intros [= H]. now apply (Unsigned.to_uint_nonnil p).
  - destruct z as [|p|p]; simpl; try discriminate.
    intros [= H]. now apply (Unsigned.to_uint_nonnil p).
Qed.

End TextFacts.

(** ** The loop of [gen_java] in closed form *)

Section RenderFacts.

Lemma format_member_line (name : string) (v : Z) :
  format_member name v = constant_line (name, v) +:+ nl.
Proof.
  unfold format_member, constant_line. simpl fst. simpl snd.
  now rewrite !append_assoc.
Qed.

Lemma assign_codes_cons (start : Z) (n : string) (ns : list string) :
  assign_codes start (n :: ns) = (n, start) :: assign_codes (start + 1) ns.
Proof.
  unfold assign_codes. rewrite imap_cons. f_equal.
  - f_equal. lia.
  - apply imap_ext. intros k x _. simpl. f_equal. lia.
Qed.

Lemma assign_codes_names (start : Z) (ns : list string) :
  fst <$> assign_codes start ns = ns.
Proof.
  revert start. induction ns as [|n ns IH]; intros start; [reflexivity |].
  rewrite assign_codes_cons. simpl. now rewrite IH.
Qed.

Lemma assign_codes_length (start : Z) (ns : list string) :
  length (assign_codes start ns) = length ns.
Proof. unfold assign_codes. apply length_imap. Qed.

Lemma assign_codes_lookup (start : Z) (ns : list string) (k : nat) :
  assign_codes start ns !! k = (fun n => (n, start + Z.of_nat k)) <$> ns !! k.
Proof. unfold assign_codes. apply list_lookup_imap. Qed.

Lemma constants_text_cons (d : string * Z) (ds : list (string * Z)) :
  constants_text (d :: ds) = constant_line d +:+ nl +:+ constants_text ds.
Proof.
  unfold constants_text. cbn [fmap list_fmap join fold_right].
  apply append_assoc.
Qed.

(** The accumulator pair after the loop. *)
Lemma loop_closed_form (items : list (string * string)) (code : string) (ev : Z) :
  fold_left loop_body items (code, ev) =
    (code +:+ constants_text (assign_codes ev (fst <$> items)),
     ev + Z.of_nat (length items)).
Proof.
  revert code ev. induction items as [|[kind name] items IH]; intros code ev.
  - cbn [fold_left fmap list_fmap length]. unfold assign_codes, constants_text.
    cbn [imap fmap list_fmap join fold_right]. rewrite append_nil_r. f_equal. lia.
  - change (fold_left loop_body ((kind, name) :: items) (code, ev))
      with (fold_left loop_body items (code +:+ format_member kind ev, ev + 1)).
    rewrite IH.
    rewrite fmap_cons. cbn [fst].
    rewrite assign_codes_cons, constants_text_cons, format_member_line.
    rewrite !append_assoc. f_equal.
    change (length ((kind, name) :: items)) with (S (length items)). lia.
Qed.

Lemma render_closed_form (parser : KindsParser) :
  render parser =
    KINDS_JAVA_TOP
      +:+ constants_text (assign_codes (-2) (dict_keys (kinds parser)))
      +:+ KINDS_JAVA_BOTTOM.
Proof.
  unfold render, dict_items. rewrite loop_closed_form.
  now rewrite append_assoc.
Qed.

End RenderFacts.

(** ** Reading the generated text back *)

Section ReaderFacts.

Lemma read_constant_line (n : string) (v : Z) :
  is_identifier n = true -> read_constant (constant_line (n, v)) = Some (n, v).
Proof.
  intros Hn. destruct (identifier_lacks n Hn) as [Hpar _].
  destruct (str_int_lacks v) as [Hclose _].
  unfold read_constant, constant_line. simpl fst. simpl snd.
  rewrite strip_prefix_app. simpl.
  change ("(" +:+ str_int v +:+ "),") with (String "(" (str_int v +:+ String ")" ",")).
  rewrite (read_until_app "(" n _ Hpar). simpl.
  rewrite (read_until_app ")" (str_int v) "," Hclose). simpl.
  rewrite Hn. simpl. now rewrite read_int_str_int.
Qed.

Lemma constant_line_lacks (d : string * Z) :
  is_identifier (fst d) = true -> lacks newline (constant_line d) = true.
Proof.
  intros Hn. destruct (identifier_lacks _ Hn) as [_ Hnl].
  destruct (str_int_lacks (snd d)) as [_ Hv].
  unfold constant_line, lacks in *.
  rewrite !all_chars_app. rewrite Hnl, Hv. reflexivity.
Qed.

Lemma constant_line_not_end (d : string * Z) :
  String.eqb (constant_line d) ";" = false.
Proof. reflexivity. Qed.

Lemma lines_constants (decls : list (string * Z)) (rest : string) :
  forallb (fun d => is_identifier (fst d)) decls = true ->
  lines (constants_text decls +:+ rest) = ((constant_line <$> decls) ++ lines rest)%list.
Proof.
  induction decls as [|d decls IH]; intros H.
  - reflexivity.
  - cbn [forallb] in H. apply andb_prop in H as [Hd Hds].
    rewrite constants_text_cons, !append_assoc.
    change (nl +:+ constants_text decls +:+ rest)
      with (String newline (constants_text decls +:+ rest)).
    rewrite (lines_app_nl _ _ (constant_line_lacks d Hd)).
    rewrite fmap_cons. cbn [app]. now rewrite (IH Hds).
Qed.

Lemma read_constants_lines (decls : list (string * Z)) (rest : list string) :
  forallb (fun d => is_identifier (fst d)) decls = true ->
  read_constants ((constant_line <$> decls) ++ ";" :: rest)%list = Some (decls, rest).
Proof.
  induction decls as [|[n v] decls IH]; intros H.
  - reflexivity.
  - simpl in H. apply andb_prop in H as [Hd Hds].
    rewrite fmap_cons. cbn [app]. unfold read_constants; fold read_constants.
    rewrite constant_line_not_end.
    rewrite (read_constant_line n v Hd). simpl.
    now rewrite (IH Hds).
Qed.

(** A header, constants with identifier names and the footer read back as
    those constants. *)
Lemma declared_constants_generated (decls : list (string * Z)) :
  forallb (fun d => is_identifier (fst d)) decls = true ->
  declared_constants (KINDS_JAVA_TOP +:+ constants_text decls +:+ KINDS_JAVA_BOTTOM)
    = Some decls.
Proof.
  intros H. unfold declared_constants.
  rewrite strip_prefix_app. simpl.
  rewrite (lines_constants _ _ H).
  change (lines KINDS_JAVA_BOTTOM) with (";" :: List.tl (lines KINDS_JAVA_BOTTOM)) at 1.
  rewrite (read_constants_lines _ _ H). cbn [mbind option_bind].
  now rewrite bool_decide_eq_true_2.
Qed.

Lemma assign_codes_identifiers (start : Z) (ns : list string) :
  forallb is_identifier ns = true ->
  forallb (fun d => is_identifier (fst d)) (assign_codes start ns) = true.
Proof.
  revert start. induction ns as [|n ns IH]; intros start H; [reflexivity |].
  simpl in H. apply andb_prop in H as [Hn Hns].
  rewrite assign_codes_cons. simpl. now rewrite Hn, (IH _ Hns).
Qed.

(** What the generated file declares. *)
Lemma declared_constants_render (parser : KindsParser) :
  forallb is_identifier (dict_keys (kinds parser)) = true ->
  declared_constants (render parser)
    = Some (assign_codes (-2) (dict_keys (kinds parser))).
Proof.
  intros H. rewrite render_closed_form.
  apply declared_constants_generated, assign_codes_identifiers, H.
Qed.

End ReaderFacts.

(** ** The generated class *)

Section JavaFacts.

Lemma values_of_lookup (decls : list (string * Z)) (k : nat) :
  values_of decls !! k = (fun d => mkKind k (fst d) (snd d)) <$> decls !! k.
Proof. unfold values_of. apply list_lookup_imap. Qed.

Lemma values_of_elem (decls : list (string * Z)) (m : Kind) :
  m ∈ values_of decls <->
  decls !! ordinal m = Some (name m, value m).
Proof.
  rewrite list_elem_of_lookup. split.
  - intros [k Hk]. rewrite values_of_lookup in Hk.
    destruct (decls !! k) as [[n v]|] eqn:E; [| discriminate].
    injection Hk as <-. exact E.
  - intros H. exists (ordinal m). rewrite values_of_lookup, H.
    now destruct m.
Qed.

(** The static initialiser, one [put] at a time. *)
Lemma put_all_other (vals : list Kind) (m0 : gmap Z Kind) (v : Z) :
  (forall m, m ∈ vals -> value m <> v) ->
  fold_left (fun kindMap kind => <[getValue kind := kind]> kindMap) vals m0 !! v
    = m0 !! v.
Proof.
  revert m0. induction vals as [|x vals IH]; intros m0 H; [reflexivity |].
  cbn [fold_left]. rewrite IH.
  - apply lookup_insert_ne. apply H. left.
  - intros m Hm. apply H. now right.
Qed.

Lemma put_all_member (vals : list Kind) (m0 : gmap Z Kind) (m : Kind) :
  NoDup (value <$> vals) -> m ∈ vals ->
  fold_left (fun kindMap kind => <[getValue kind := kind]> kindMap) vals m0
    !! value m = Some m.
Proof.
  revert m0. induction vals as [|x vals IH]; intros m0 Hnd Hm.
  - now apply elem_of_nil in Hm.
  - rewrite fmap_cons in Hnd. apply NoDup_cons in Hnd as [Hx Hnd].
    cbn [fold_left]. apply elem_of_cons in Hm as [-> | Hm].
    + rewrite put_all_other; [apply lookup_insert_eq |].
      intros m' Hm' E. apply Hx. rewrite <- E. now apply list_elem_of_fmap_2.
    + now apply IH.
Qed.

Lemma static_init_member (vals : list Kind) (m : Kind) :
  NoDup (value <$> vals) -> m ∈ vals -> static_init vals !! value m = Some m.
Proof. apply put_all_member. Qed.

Lemma static_init_absent (vals : list Kind) (v : Z) :
  (forall m, m ∈ vals -> value m <> v) -> static_init vals !! v = None.
Proof. intros H. unfold static_init. now rewrite put_all_other. Qed.

(** A name resolves to the constant that bears it. *)
Lemma resolve_member (vals : list Kind) (m : Kind) :
  NoDup (name <$> vals) -> m ∈ vals -> resolve (name m) vals = Some m.
Proof.
  unfold resolve. induction vals as [|x vals IH]; intros Hnd Hm.
  - now apply elem_of_nil in Hm.
  - rewrite fmap_cons in Hnd. apply NoDup_cons in Hnd as [Hx Hnd].
    cbn [List.find]. apply elem_of_cons in Hm as [-> | Hm].
    + now rewrite String.eqb_refl.
    + destruct (String.eqb_spec (name x) (name m)) as [E | _].
      * exfalso. apply Hx. rewrite E. now apply list_elem_of_fmap_2.
      * now apply IH.
Qed.

Lemma resolve_Some (nm : string) (vals : list Kind) (m : Kind) :
  resolve nm vals = Some m -> m ∈ vals /\ name m = nm.
Proof.
  unfold resolve. induction vals as [|x vals IH]; [discriminate |].
  cbn [List.find]. destruct (String.eqb_spec (name x) nm) as [E | _].
  - intros [= <-]. split; [left | exact E].
  - intros H. destruct (IH H) as [Hm Hn]. split; [now right | exact Hn].
Qed.

Lemma values_of_names (decls : list (string * Z)) :
  name <$> values_of decls = fst <$> decls.
Proof.
  apply list_eq. intros k.
  rewrite !list_lookup_fmap, values_of_lookup.
  now destruct (decls !! k).
Qed.

Lemma values_of_values (decls : list (string * Z)) :
  value <$> values_of decls = snd <$> decls.
Proof.
  apply list_eq. intros k.
  rewrite !list_lookup_fmap, values_of_lookup.
  now destruct (decls !! k).
Qed.

(** Sequential codes are pairwise distinct. *)
Lemma assign_codes_NoDup (start : Z) (ns : list string) :
  NoDup (snd <$> assign_codes start ns).
Proof.
  apply NoDup_alt. intros i j v.
  rewrite !list_lookup_fmap, !assign_codes_lookup.
  destruct (ns !! i); [| discriminate]. destruct (ns !! j); [| discriminate].
  cbn. intros [= <-] [= E]. lia.
Qed.

End JavaFacts.

(** ** The class generated from a mapping

    The mapping has identifier keys, pairwise distinct as the keys of a dict
    are, and [INTERNAL_KIND] and [LAST_KIND] are among them. *)

Section GeneratedClass.

Variable parser : KindsParser.
Variables lo hi : nat.

Hypothesis keys_identifiers :
  forallb is_identifier (dict_keys (kinds parser)) = true.
Hypothesis keys_distinct : NoDup (dict_keys (kinds parser)).
Hypothesis lo_key : dict_keys (kinds parser) !! lo = Some "INTERNAL_KIND".
Hypothesis hi_key : dict_keys (kinds parser) !! hi = Some "LAST_KIND".

Lemma generated_member (k : nat) (nm : string) :
  dict_keys (kinds parser) !! k = Some nm ->
  mkKind k nm (-2 + Z.of_nat k)
    ∈ values_of (assign_codes (-2) (dict_keys (kinds parser))).
Proof.
  intros H. apply values_of_elem. cbn [ordinal name value].
  now rewrite assign_codes_lookup, H.
Qed.

Lemma generated_member_inv (m : Kind) :
  m ∈ values_of (assign_codes (-2) (dict_keys (kinds parser))) ->
  dict_keys (kinds parser) !! ordinal m = Some (name m) /\
  value m = -2 + Z.of_nat (ordinal m).
Proof.
  intros H%values_of_elem. rewrite assign_codes_lookup in H.
  destruct (dict_keys (kinds parser) !! ordinal m) as [nm|]; [| discriminate].
  cbn in H. injection H as -> <-. split; reflexivity.
Qed.

Lemma generated_names_distinct :
  NoDup (name <$> values_of (assign_codes (-2) (dict_keys (kinds parser)))).
Proof. now rewrite values_of_names, assign_codes_names. Qed.

Lemma generated_values_distinct :
  NoDup (value <$> values_of (assign_codes (-2) (dict_keys (kinds parser)))).
Proof. rewrite values_of_values. apply assign_codes_NoDup. Qed.

(** The class loads, and the two names of [fromInt] denote the constants
    at positions [lo] and [hi]. *)
Lemma load_render :
  load (render parser) =
    Some {| Kind_values :=
              values_of (assign_codes (-2) (dict_keys (kinds parser)));
            INTERNAL_KIND := mkKind lo "INTERNAL_KIND" (-2 + Z.of_nat lo);
            LAST_KIND := mkKind hi "LAST_KIND" (-2 + Z.of_nat hi);
            kindMap :=
              static_init
                (values_of (assign_codes (-2) (dict_keys (kinds parser)))) |}.
Proof.
  unfold load. rewrite (declared_constants_render _ keys_identifiers).
  cbn [mbind option_bind].
  rewrite bool_decide_eq_true_2 by (now rewrite assign_codes_names).
  pose proof (resolve_member _ _ generated_names_distinct
                (generated_member _ _ lo_key)) as Rlo.
  pose proof (resolve_member _ _ generated_names_distinct
                (generated_member _ _ hi_key)) as Rhi.
  cbn [name] in Rlo, Rhi. rewrite Rlo. cbn [mbind option_bind].
  rewrite Rhi. reflexivity.
Qed.

(** [kindMap] holds, under each assigned code, the constant of that
    code, and nothing else. *)
Lemma kindMap_generated (k : nat) (nm : string) :
  dict_keys (kinds parser) !! k = Some nm ->
  static_init (values_of (assign_codes (-2) (dict_keys (kinds parser))))
    !! (-2 + Z.of_nat k)
  = Some (mkKind k nm (-2 + Z.of_nat k)).
Proof.
  intros H.
  apply (static_init_member _ (mkKind k nm (-2 + Z.of_nat k))
           generated_values_distinct (generated_member _ _ H)).
Qed.

Lemma kindMap_generated_absent (v : Z) :
  v < -2 \/ -2 + Z.of_nat (length (dict_keys (kinds parser))) <= v ->
  static_init (values_of (assign_codes (-2) (dict_keys (kinds parser)))) !! v
    = None.
Proof.
  intros Hv. apply static_init_absent. intros m Hm E.
  destruct (generated_member_inv m Hm) as [Hk Hval].
  apply lookup_lt_Some in Hk. lia.
Qed.

(** [fromInt] on the loaded class. *)
Lemma fromInt_generated (C : Kind_class) (v : Z) :
  load (render parser) = Some C ->
  fromInt C v =
    if (v <? -2 + Z.of_nat lo) || (v >? -2 + Z.of_nat hi)
    then Throws (range_message v (-2 + Z.of_nat lo) (-2 + Z.of_nat hi))
    else Returns
           (static_init
              (values_of (assign_codes (-2) (dict_keys (kinds parser)))) !! v).
Proof. rewrite load_render. intros [= <-]. reflexivity. Qed.

Lemma Kind_values_generated (C : Kind_class) :
  load (render parser) = Some C ->
  Kind_values C = values_of (assign_codes (-2) (dict_keys (kinds parser))).
Proof. rewrite load_render. intros [= <-]. reflexivity. Qed.

End GeneratedClass.

(** ** The effects of [gen_java] *)

Section IOFacts.

Lemma gen_java_succeeds (parser : KindsParser) (filename : string)
    (fs : gmap string string) (lg : list io_event) :
  gen_java parser filename (World fs lg None) =
    (Normal tt,
     World (<[filename := render parser]> fs)
           (lg ++ [EvOpen filename "w"; EvWrite filename (render parser);
                   EvClose filename])%list
           None).
Proof.
  unfold gen_java, mbind, IO_bind, open_w, file_write, file_close.
  cbn [fault files log file_path].
  rewrite lookup_insert_eq, insert_insert_eq. cbn [default].
  rewrite <- !app_assoc. reflexivity.
Qed.

Lemma gen_java_open_fails (parser : KindsParser) (filename : string)
    (fs : gmap string string) (lg : list io_event) :
  gen_java parser filename (World fs lg (Some OpenFails)) =
    (Raised (OSError filename),
     World fs (lg ++ [EvOpen filename "w"])%list (Some OpenFails)).
Proof. reflexivity. Qed.

Lemma gen_java_write_fails (parser : KindsParser) (filename : string)
    (fs : gmap string string) (lg : list io_event) (n : nat) :
  gen_java parser filename (World fs lg (Some (WriteFails n))) =
    (Raised (OSError filename),
     World (<[filename := substring 0 n (render parser)]> fs)
           (lg ++ [EvOpen filename "w"; EvWrite filename (render parser)])%list
           (Some (WriteFails n))).
Proof.
  unfold gen_java, mbind, IO_bind, open_w, file_write, file_close.
  cbn [fault files log file_path].
  rewrite lookup_insert_eq, insert_insert_eq. cbn [default].
  rewrite <- !app_assoc. reflexivity.
Qed.

End IOFacts.

(** ** Code assignment and layout of the generated text *)

Lemma constants_text_imap (items : list (string * string)) (start : Z) :
  join (imap (fun k entry =>
          "  " +:+ fst entry +:+ "(" +:+ str_int (start + Z.of_nat k) +:+ ")," +:+ nl)
        items)
  = constants_text (assign_codes start (fst <$> items)).
Proof.
  revert start. induction items as [|[kind name] items IH]; intros start.
  - reflexivity.
  - rewrite imap_cons, fmap_cons, assign_codes_cons, constants_text_cons.
    cbn [join fold_right fst]. fold (join (imap
      ((fun k entry => "  " +:+ fst entry +:+ "(" +:+ str_int (start + Z.of_nat k)
                         +:+ ")," +:+ nl) ∘ S) items)).
    rewrite (imap_ext _ (fun k entry =>
      "  " +:+ fst entry +:+ "(" +:+ str_int ((start + 1) + Z.of_nat k) +:+ ")," +:+ nl)).
    + rewrite IH. replace (start + Z.of_nat 0) with start by lia.
      fold (format_member kind start). rewrite format_member_line.
      now rewrite append_assoc.
    + intros k x _. unfold compose.
      replace (start + Z.of_nat (S k)) with (start + 1 + Z.of_nat k) by lia.
      reflexivity.
Qed.

(** C1.  For every ordered mapping whose keys are identifiers, the generated
    file declares one constant per entry, in the order of the entries, and
    the constant at position [k] (counted from 0) is bound to the code
    [-2 + k]; the names AND, OR, NOT get the codes -2, -1, 0. *)
Theorem C1_codes_follow_input_order (parser : KindsParser) :
  forallb is_identifier (dict_keys (kinds parser)) = true ->
  (exists decls : list (string * Z),
      declared_constants (render parser) = Some decls /\
      length decls = length (dict_items (kinds parser)) /\
      forall (k : nat) (kind name : string),
        dict_items (kinds parser) !! k = Some (kind, name) ->
        decls !! k = Some (kind, -2 + Z.of_nat k)) /\
  (forall a b c : string,
      declared_constants
        (render {| kinds := [("AND", a); ("OR", b); ("NOT", c)] |})
      = Some [("AND", -2); ("OR", -1); ("NOT", 0)]).
Proof.
  intros Hid. split.
  - exists (assign_codes (-2) (dict_keys (kinds parser))). split; [| split].
    + now apply declared_constants_render.
    + unfold dict_keys, dict_items. now rewrite assign_codes_length, length_fmap.
    + intros k kind name Hk. unfold dict_items in Hk.
      rewrite assign_codes_lookup. unfold dict_keys.
      now rewrite list_lookup_fmap, Hk.
  - intros a b c. now rewrite declared_constants_render.
Qed.

Lemma C1_codes_follow_input_order_witness :
  (exists decls : list (string * Z),
      declared_constants (render and_or_not) = Some decls /\
      length decls = length (dict_items (kinds and_or_not)) /\
      forall (k : nat) (kind name : string),
        dict_items (kinds and_or_not) !! k = Some (kind, name) ->
        decls !! k = Some (kind, -2 + Z.of_nat k)) /\
  (forall a b c : string,
      declared_constants
        (render {| kinds := [("AND", a); ("OR", b); ("NOT", c)] |})
      = Some [("AND", -2); ("OR", -1); ("NOT", 0)]).
Proof. apply (C1_codes_follow_input_order and_or_not). reflexivity. Defined.

(** C10.  The generated text is the header, then for each entry in order
    the line made of two spaces, the key, the code in parentheses, a comma
    and a newline (after the last entry as after the others), then the
    footer, and nothing else; this is the text that a run without failure
    leaves in the target file. *)
Theorem C10_text_layout (parser : KindsParser) (filename : string)
    (fs : gmap string string) (lg : list io_event) :
  render parser =
    KINDS_JAVA_TOP
      +:+ join (imap (fun k entry =>
                  "  " +:+ fst entry +:+ "(" +:+ str_int (-2 + Z.of_nat k)
                       +:+ ")," +:+ nl)
                (dict_items (kinds parser)))
      +:+ KINDS_JAVA_BOTTOM
  /\ files (snd (gen_java parser filename (World fs lg None))) !! filename
     = Some (render parser).
Proof.
  split.
  - rewrite constants_text_imap. apply render_closed_form.
  - rewrite gen_java_succeeds. cbn [snd files]. apply lookup_insert_eq.
Qed.

(** C9.  The text and the codes depend on the mapping only: two runs on the
    same mapping, from any two states of the file system and to any two
    targets, leave the same text, which declares the same constants; and a
    second run after a first one changes nothing in the files. *)
Theorem C9_generation_is_deterministic (parser : KindsParser)
    (f1 f2 : string) (fs1 fs2 : gmap string string) (lg1 lg2 : list io_event) :
  let w1 := snd (gen_java parser f1 (World fs1 lg1 None)) in
  let w2 := snd (gen_java parser f2 (World fs2 lg2 None)) in
  files w1 !! f1 = Some (render parser) /\
  files w2 !! f2 = Some (render parser) /\
  (files w1 !! f1 ≫= declared_constants) = (files w2 !! f2 ≫= declared_constants) /\
  files (snd (gen_java parser f1 w1)) = files w1.
Proof.
  cbn zeta. rewrite !gen_java_succeeds. cbn [snd files].
  rewrite !lookup_insert_eq. repeat split.
  rewrite gen_java_succeeds. cbn [snd files]. apply insert_insert_eq.
Qed.

(** ** What a loaded class tells about its text *)

Lemma load_inv (text : string) (C : Kind_class) :
  load text = Some C ->
  exists decls : list (string * Z),
    declared_constants text = Some decls /\
    NoDup (fst <$> decls) /\
    Kind_values C = values_of decls /\
    resolve "INTERNAL_KIND" (values_of decls) = Some (INTERNAL_KIND C) /\
    resolve "LAST_KIND" (values_of decls) = Some (LAST_KIND C) /\
    kindMap C = static_init (values_of decls).
Proof.
  unfold load. destruct (declared_constants text) as [decls|]; [| discriminate].
  cbn [mbind option_bind]. case_bool_decide as Hnd; [| discriminate].
  destruct (resolve "INTERNAL_KIND" (values_of decls)) as [lo|] eqn:Elo;
    [| discriminate].
  cbn [mbind option_bind].
  destruct (resolve "LAST_KIND" (values_of decls)) as [hi|] eqn:Ehi;
    [| discriminate].
  cbn [mbind option_bind]. intros [= <-]. exists decls. now repeat split.
Qed.

(** The keys of a mapping whose file defines a class are pairwise
    distinct. *)
Lemma loaded_keys_distinct (parser : KindsParser) (C : Kind_class) :
  forallb is_identifier (dict_keys (kinds parser)) = true ->
  load (render parser) = Some C ->
  NoDup (dict_keys (kinds parser)).
Proof.
  intros Hid (decls & Hd & Hnd & _)%load_inv.
  rewrite (declared_constants_render _ Hid) in Hd. injection Hd as <-.
  now rewrite assign_codes_names in Hnd.
Qed.

(** ** The range check of [fromInt] *)

Lemma sentinel_positions (parser : KindsParser) (mid : list string) :
  dict_keys (kinds parser) = "INTERNAL_KIND" :: (mid ++ ["LAST_KIND"])%list ->
  dict_keys (kinds parser) !! 0%nat = Some "INTERNAL_KIND" /\
  dict_keys (kinds parser) !! S (length mid) = Some "LAST_KIND" /\
  length (kinds parser) = S (S (length mid)).
Proof.
  intros E. split; [| split].
  - now rewrite E.
  - rewrite E. cbn [lookup list_lookup]. now apply list_lookup_middle.
  - rewrite <- (length_fmap fst (kinds parser)). fold (dict_keys (kinds parser)).
    rewrite E. cbn [length]. rewrite length_app. cbn [length]. lia.
Qed.

(** C2, as the code has it.  When the generated file defines a class,
    [INTERNAL_KIND] is the first key of the mapping and [LAST_KIND] the
    last one, the codes of the [n] constants fill [-2 .. n-3], and
    [fromInt] throws [CVCApiException] for every integer outside this
    range, with the message
    [Kind value v is outside the valid range [-2,n-3]]; in particular it
    throws at [-3] and at [n-2], and it returns a constant at [-2] and at
    [n-3]. *)
Theorem C2_range_check_between_sentinels (parser : KindsParser)
    (mid : list string) (C : Kind_class) :
  dict_keys (kinds parser) = "INTERNAL_KIND" :: (mid ++ ["LAST_KIND"])%list ->
  forallb is_identifier (dict_keys (kinds parser)) = true ->
  load (render parser) = Some C ->
  let start := -2 in
  let n := Z.of_nat (length (kinds parser)) in
  (forall v : Z,
      v < start \/ start + n - 1 < v ->
      fromInt C v =
        Throws ("Kind value " +:+ str_int v +:+ " is outside the valid range ["
                  +:+ str_int start +:+ "," +:+ str_int (start + n - 1) +:+ "]")) /\
  (exists msg, fromInt C (start - 1) = Throws msg) /\
  (exists msg, fromInt C (start + n) = Throws msg) /\
  (exists m, fromInt C start = Returns (Some m)) /\
  (exists m, fromInt C (start + n - 1) = Returns (Some m)).
Proof.
  intros E Hid Hload start n.
  pose proof (loaded_keys_distinct parser C Hid Hload) as Hnd.
  destruct (sentinel_positions parser mid E) as (Hlo & Hhi & Hlen).
  pose proof (fun v => fromInt_generated parser 0 (S (length mid))
                         Hid Hnd Hlo Hhi C v Hload) as Hfrom.
  assert (Hn : start + n - 1 = -2 + Z.of_nat (S (length mid))) by (subst start n; lia).
  assert (Hthrow : forall v : Z,
             v < start \/ start + n - 1 < v ->
             fromInt C v = Throws (range_message v start (start + n - 1))).
  { intros v Hv. rewrite Hfrom, Hn. change (-2 + Z.of_nat 0) with start.
    destruct (v <? start) eqn:E1; [reflexivity |].
    destruct (v >? -2 + Z.of_nat (S (length mid))) eqn:E2; [reflexivity |].
    apply Z.ltb_ge in E1. rewrite Z.gtb_ltb in E2. apply Z.ltb_ge in E2. lia. }
  split; [exact Hthrow |].
  split; [eexists; apply Hthrow; lia |].
  split; [eexists; apply Hthrow; lia |].
  split.
  - exists (mkKind 0 "INTERNAL_KIND" (-2 + Z.of_nat 0)).
    rewrite Hfrom, <- (kindMap_generated parser 0 "INTERNAL_KIND" Hlo).
    replace (start <? -2 + Z.of_nat 0) with false
      by (symmetry; apply Z.ltb_ge; subst start; lia).
    replace (start >? -2 + Z.of_nat (S (length mid))) with false
      by (symmetry; rewrite Z.gtb_ltb; apply Z.ltb_ge; subst start; lia).
    reflexivity.
  - exists (mkKind (S (length mid)) "LAST_KIND" (-2 + Z.of_nat (S (length mid)))).
    rewrite Hfrom, <- (kindMap_generated parser _ "LAST_KIND" Hhi), Hn.
    replace (-2 + Z.of_nat (S (length mid)) <? -2 + Z.of_nat 0) with false
      by (symmetry; apply Z.ltb_ge; lia).
    replace (-2 + Z.of_nat (S (length mid)) >? -2 + Z.of_nat (S (length mid))) with false
      by (symmetry; rewrite Z.gtb_ltb; apply Z.ltb_ge; lia).
    reflexivity.
Qed.

Lemma C2_range_check_between_sentinels_witness :
  let start := -2 in
  let n := Z.of_nat (length (kinds sentinels)) in
  (forall v : Z,
      v < start \/ start + n - 1 < v ->
      fromInt sentinels_class v =
        Throws ("Kind value " +:+ str_int v +:+ " is outside the valid range ["
                  +:+ str_int start +:+ "," +:+ str_int (start + n - 1) +:+ "]")) /\
  (exists msg, fromInt sentinels_class (start - 1) = Throws msg) /\
  (exists msg, fromInt sentinels_class (start + n) = Throws msg) /\
  (exists m, fromInt sentinels_class start = Returns (Some m)) /\
  (exists m, fromInt sentinels_class (start + n - 1) = Returns (Some m)).
Proof.
  apply (C2_range_check_between_sentinels sentinels
           ["UNDEFINED_KIND"; "NULL_EXPR"] sentinels_class).
  - reflexivity.
  - reflexivity.
  - vm_compute. reflexivity.
Defined.

(** C2 as worded fails: with a kind declared before [INTERNAL_KIND] the
    codes are -2, -1, 0, and [fromInt] throws at the lowest code, -2. *)
Lemma C2_lowest_code_rejected :
  declared_constants (render shifted)
    = Some [("A", -2); ("INTERNAL_KIND", -1); ("LAST_KIND", 0)] /\
  (fun C => fromInt C (-2)) <$> load (render shifted)
    = Some (Throws "Kind value -2 is outside the valid range [-1,0]").
Proof. split; vm_compute; reflexivity. Qed.

(** ** [fromInt] and [getValue] *)

(** C3, as the code has it.  When the generated file defines a class,
    [INTERNAL_KIND] is the first key of the mapping and [LAST_KIND] the
    last one, [fromInt] and [getValue] are inverse to each other:
    [fromInt v] returns a constant whose [getValue] is [v] for every code
    [v] of [-2 .. n-3], and [fromInt (getValue m)] returns [m] for every
    constant [m]. *)
Theorem C3_fromInt_getValue_inverse (parser : KindsParser)
    (mid : list string) (C : Kind_class) :
  dict_keys (kinds parser) = "INTERNAL_KIND" :: (mid ++ ["LAST_KIND"])%list ->
  forallb is_identifier (dict_keys (kinds parser)) = true ->
  load (render parser) = Some C ->
  let start := -2 in
  let n := Z.of_nat (length (kinds parser)) in
  (forall v : Z,
      start <= v <= start + n - 1 ->
      exists m, fromInt C v = Returns (Some m) /\ getValue m = v) /\
  (forall m : Kind,
      m ∈ Kind_values C -> fromInt C (getValue m) = Returns (Some m)).
Proof.
  intros E Hid Hload start n.
  pose proof (loaded_keys_distinct parser C Hid Hload) as Hnd.
  destruct (sentinel_positions parser mid E) as (Hlo & Hhi & Hlen).
  pose proof (fun v => fromInt_generated parser 0 (S (length mid))
                         Hid Hnd Hlo Hhi C v Hload) as Hfrom.
  pose proof (Kind_values_generated parser 0 (S (length mid))
                Hid Hnd Hlo Hhi C Hload) as Hvals.
  assert (Hin : forall (k : nat) (nm : string),
             dict_keys (kinds parser) !! k = Some nm ->
             fromInt C (-2 + Z.of_nat k)
               = Returns (Some (mkKind k nm (-2 + Z.of_nat k)))).
  { intros k nm Hk. rewrite Hfrom, (kindMap_generated parser k nm Hk).
    pose proof (lookup_lt_Some _ _ _ Hk) as Hlt.
    unfold dict_keys in Hlt. rewrite length_fmap, Hlen in Hlt.
    replace (-2 + Z.of_nat k <? -2 + Z.of_nat 0) with false
      by (symmetry; apply Z.ltb_ge; lia).
    replace (-2 + Z.of_nat k >? -2 + Z.of_nat (S (length mid))) with false
      by (symmetry; rewrite Z.gtb_ltb; apply Z.ltb_ge; lia).
    reflexivity. }
  split.
  - intros v Hv.
    destruct (lookup_lt_is_Some_2 (dict_keys (kinds parser)) (Z.to_nat (v + 2)))
      as [nm Hnm].
    { unfold dict_keys. rewrite length_fmap. subst start n. lia. }
    exists (mkKind (Z.to_nat (v + 2)) nm v). split; [| reflexivity].
    pose proof (Hin _ _ Hnm) as Hret. subst start n.
    replace (-2 + Z.of_nat (Z.to_nat (v + 2))) with v in Hret by lia.
    exact Hret.
  - intros m Hm. rewrite Hvals in Hm.
    destruct (generated_member_inv parser m Hm) as [Hk Hv].
    unfold getValue. rewrite Hv, (Hin _ _ Hk). rewrite <- Hv. now destruct m.
Qed.

Lemma C3_fromInt_getValue_inverse_witness :
  let start := -2 in
  let n := Z.of_nat (length (kinds sentinels)) in
  (forall v : Z,
      start <= v <= start + n - 1 ->
      exists m, fromInt sentinels_class v = Returns (Some m) /\ getValue m = v) /\
  (forall m : Kind,
      m ∈ Kind_values sentinels_class ->
      fromInt sentinels_class (getValue m) = Returns (Some m)).
Proof.
  apply (C3_fromInt_getValue_inverse sentinels
           ["UNDEFINED_KIND"; "NULL_EXPR"] sentinels_class).
  - reflexivity.
  - reflexivity.
  - vm_compute. reflexivity.
Defined.

(** C3 as worded fails: with a kind [A] declared before [INTERNAL_KIND],
    [A] is the first constant, [getValue] of it is -2, and [fromInt (-2)]
    throws instead of returning [A]. *)
Lemma C3_first_constant_not_found :
  (fun C => (getValue <$> Kind_values C !! 0%nat, fromInt C (-2)))
    <$> load (render shifted)
  = Some (Some (-2), Throws "Kind value -2 is outside the valid range [-1,0]").
Proof. vm_compute. reflexivity. Qed.

(** ** Names of the constants *)

Lemma render_keys_only (p1 p2 : KindsParser) :
  dict_keys (kinds p1) = dict_keys (kinds p2) -> render p1 = render p2.
Proof. intros E. now rewrite !render_closed_form, E. Qed.

(** C4, as the code has it.  The name of each declared constant is the key
    of its entry, verbatim and in order; the values of the mapping are not
    used: two mappings with the same keys give the same text. *)
Theorem C4_constant_name_is_the_key (parser : KindsParser) :
  forallb is_identifier (dict_keys (kinds parser)) = true ->
  (fun decls : list (string * Z) => fst <$> decls)
    <$> declared_constants (render parser)
    = Some (fst <$> dict_items (kinds parser)) /\
  (forall parser' : KindsParser,
      dict_keys (kinds parser') = dict_keys (kinds parser) ->
      render parser' = render parser).
Proof.
  intros Hid. split.
  - rewrite (declared_constants_render _ Hid). cbn [fmap option_fmap option_map].
    now rewrite assign_codes_names.
  - intros parser'. apply render_keys_only.
Qed.

Lemma C4_constant_name_is_the_key_witness :
  (fun decls : list (string * Z) => fst <$> decls)
    <$> declared_constants (render sentinels)
    = Some (fst <$> dict_items (kinds sentinels)) /\
  (forall parser' : KindsParser,
      dict_keys (kinds parser') = dict_keys (kinds sentinels) ->
      render parser' = render sentinels).
Proof. apply (C4_constant_name_is_the_key sentinels). reflexivity. Defined.

(** C4 as worded fails: for the entry with key [AND] and value [And] the
    declared constant is called [AND]. *)
Lemma C4_value_not_used :
  dict_items (kinds renamed) = [("AND", "And")] /\
  declared_constants (render renamed) = Some [("AND", -2)].
Proof. split; vm_compute; reflexivity. Qed.

(** ** Duplicate names *)






(** ** Input and output of [gen_java] *)

(** C6, as the code has it.  [gen_java] does the output itself: it opens
    the target for writing, builds the text without any further call to
    the file system, writes it in one call, closes the file, and returns
    nothing. *)
Theorem C6_gen_java_writes_the_target (parser : KindsParser) (filename : string)
    (fs : gmap string string) (lg : list io_event) :
  gen_java parser filename (World fs lg None) =
    (Normal tt,
     World (<[filename := render parser]> fs)
           (lg ++ [EvOpen filename "w"; EvWrite filename (render parser);
                   EvClose filename])%list
           None).
Proof. apply gen_java_succeeds. Qed.

(** C6 as worded fails: a run on the empty mapping returns no text and
    leaves a file and three calls behind. *)
Lemma C6_run_has_effects :
  gen_java empty "Kind.java" (World ∅ [] None) =
    (Normal tt,
     World {[ "Kind.java" := KINDS_JAVA_TOP +:+ KINDS_JAVA_BOTTOM ]}
           [EvOpen "Kind.java" "w";
            EvWrite "Kind.java" (KINDS_JAVA_TOP +:+ KINDS_JAVA_BOTTOM);
            EvClose "Kind.java"]
           None).
Proof. rewrite gen_java_succeeds, insert_empty. reflexivity. Qed.

(** ** The empty mapping *)

(** C7, as the code has it.  On the empty mapping the run succeeds and the
    text is the header followed by the footer, with no constant.  The
    footer is the same as for every other input: [fromInt] compares with
    [INTERNAL_KIND] and [LAST_KIND], which are not declared, so the text
    defines no class; and a message thrown by [fromInt], for whatever
    class, is the range message, never a report of an empty range. *)
Theorem C7_empty_mapping (filename : string) (fs : gmap string string)
    (lg : list io_event) :
  fst (gen_java empty filename (World fs lg None)) = Normal tt /\
  render empty = KINDS_JAVA_TOP +:+ KINDS_JAVA_BOTTOM /\
  declared_constants (render empty) = Some [] /\
  load (render empty) = None /\
  (forall (C : Kind_class) (v : Z),
      fromInt C v = Returns (kindMap C !! v) \/
      fromInt C v =
        Throws ("Kind value " +:+ str_int v +:+ " is outside the valid range ["
                  +:+ str_int (value (INTERNAL_KIND C)) +:+ ","
                  +:+ str_int (value (LAST_KIND C)) +:+ "]")).
Proof.
  split; [now rewrite gen_java_succeeds |].
  split; [reflexivity |]. split; [reflexivity |]. split; [reflexivity |].
  intros C v. unfold fromInt, range_message.
  destruct ((v <? value (INTERNAL_KIND C)) || (v >? value (LAST_KIND C)));
    [now right | now left].
Qed.

(** C7 as worded fails: the file generated from the empty mapping declares
    no constant and defines no class, hence no lookup that could fail with
    a message. *)
Lemma C7_no_class_for_empty_mapping :
  declared_constants (render empty) = Some [] /\ load (render empty) = None.
Proof. split; vm_compute; reflexivity. Qed.

(** ** Failures *)

(** C8, as the code has it.  The target is opened, and thereby truncated,
    before the text is built.  When [open] fails the files are as before;
    when the write fails the target holds the part of the text that was
    written and its previous content is lost; only a run without failure
    leaves the complete text. *)
Theorem C8_target_after_a_failure (parser : KindsParser) (filename : string)
    (fs : gmap string string) (lg : list io_event) (flt : option io_fault) :
  let run := gen_java parser filename (World fs lg flt) in
  match flt with
  | None =>
      fst run = Normal tt /\ files (snd run) = <[filename := render parser]> fs
  | Some OpenFails =>
      fst run = Raised (OSError filename) /\ files (snd run) = fs
  | Some (WriteFails n) =>
      fst run = Raised (OSError filename) /\
      files (snd run) = <[filename := substring 0 n (render parser)]> fs
  end.
Proof.
  destruct flt as [[|n]|]; cbn zeta.
  - now rewrite gen_java_open_fails.
  - now rewrite gen_java_write_fails.
  - now rewrite gen_java_succeeds.
Qed.

(** C8 as worded fails: when the write fails before anything reached the
    file, the target, which held a text before the run, is left empty. *)
Lemma C8_failed_write_truncates :
  let before := World {[ "Kind.java" := "old text" ]} [] (Some (WriteFails 0)) in
  let run := gen_java and_or_not "Kind.java" before in
  fst run = Raised (OSError "Kind.java") /\
  files before !! "Kind.java" = Some "old text" /\
  files (snd run) !! "Kind.java" = Some "".
Proof.
  cbn zeta. rewrite gen_java_write_fails. cbn [fst snd files].
  split; [reflexivity |]. split; [apply lookup_singleton_eq |].
  apply lookup_insert_eq.
Qed.

(** * Further properties of the generator *)

(** ** Codes under growth of the mapping *)

Lemma assign_codes_app (start : Z) (l1 l2 : list string) :
  assign_codes start (l1 ++ l2)%list
  = (assign_codes start l1
       ++ assign_codes (start + Z.of_nat (length l1)) l2)%list.
Proof.
  revert start. induction l1 as [|n l1 IH]; intros start.
  - cbn [app length]. unfold assign_codes at 2. cbn [imap app].
    f_equal. lia.
  - cbn [app]. rewrite !assign_codes_cons, IH. cbn [app length].
    do 3 f_equal. lia.
Qed.

Lemma assign_codes_shift (start : Z) (l : list string) :
  assign_codes (start + 1) l
  = (fun d : string * Z => (fst d, snd d + 1)) <$> assign_codes start l.
Proof.
  revert start. induction l as [|n l IH]; intros start; [reflexivity |].
  rewrite !assign_codes_cons, fmap_cons, IH. reflexivity.
Qed.

Lemma identifiers_app (l1 l2 : list string) :
  forallb is_identifier (l1 ++ l2)%list = true <->
  forallb is_identifier l1 = true /\ forallb is_identifier l2 = true.
Proof. rewrite forallb_app. apply andb_true_iff. Qed.

(** X1.  A kind added at the end of the mapping leaves every constant
    declared so far with its code and comes last, with the next code. *)
Theorem X1_appended_kind_keeps_codes (parser : KindsParser) (kind name : string) :
  forallb is_identifier (dict_keys (kinds parser)) = true ->
  is_identifier kind = true ->
  exists decls : list (string * Z),
    declared_constants (render parser) = Some decls /\
    declared_constants (render {| kinds := (kinds parser ++ [(kind, name)])%list |})
      = Some (decls ++ [(kind, -2 + Z.of_nat (length (kinds parser)))])%list.
Proof.
  intros Hid Hk. exists (assign_codes (-2) (dict_keys (kinds parser))). split.
  - now apply declared_constants_render.
  - rewrite declared_constants_render.
    + cbn [kinds]. unfold dict_keys. rewrite fmap_app, assign_codes_app.
      rewrite length_fmap. cbn [fmap list_fmap fst].
      now rewrite assign_codes_cons.
    + cbn [kinds]. unfold dict_keys in *. rewrite fmap_app.
      apply identifiers_app. split; [exact Hid |]. cbn. now rewrite Hk.
Qed.

Lemma X1_appended_kind_keeps_codes_witness :
  exists decls : list (string * Z),
    declared_constants (render and_or_not) = Some decls /\
    declared_constants (render {| kinds := (kinds and_or_not ++ [("XOR", "Xor")])%list |})
      = Some (decls ++ [("XOR", -2 + Z.of_nat (length (kinds and_or_not)))])%list.
Proof.
  apply (X1_appended_kind_keeps_codes and_or_not "XOR" "Xor"); reflexivity.
Defined.

(** X2.  A kind inserted in the middle of the mapping takes the code of
    its position; the constants before it keep their codes and the code of
    every constant after it grows by one. *)
Theorem X2_inserted_kind_shifts_later_codes
    (before after : list (string * string)) (kind name : string) :
  forallb is_identifier (fst <$> before) = true ->
  forallb is_identifier (fst <$> after) = true ->
  is_identifier kind = true ->
  exists d1 d2 : list (string * Z),
    length d1 = length before /\
    declared_constants (render {| kinds := (before ++ after)%list |})
      = Some (d1 ++ d2)%list /\
    declared_constants (render {| kinds := (before ++ (kind, name) :: after)%list |})
      = Some (d1 ++ (kind, -2 + Z.of_nat (length before))
                 :: ((fun d : string * Z => (fst d, snd d + 1)) <$> d2))%list.
Proof.
  intros Hb Ha Hk.
  exists (assign_codes (-2) (fst <$> before)),
         (assign_codes (-2 + Z.of_nat (length before)) (fst <$> after)).
  split; [now rewrite assign_codes_length, length_fmap |]. split.
  - rewrite declared_constants_render.
    + cbn [kinds]. unfold dict_keys. rewrite fmap_app, assign_codes_app.
      now rewrite length_fmap.
    + cbn [kinds]. unfold dict_keys. rewrite fmap_app.
      now apply identifiers_app.
  - rewrite declared_constants_render.
    + cbn [kinds]. unfold dict_keys.
      rewrite fmap_app, fmap_cons, assign_codes_app, assign_codes_cons.
      rewrite length_fmap, assign_codes_shift. reflexivity.
    + cbn [kinds]. unfold dict_keys. rewrite fmap_app, fmap_cons.
      apply identifiers_app. split; [exact Hb |].
      cbn [forallb fst]. now rewrite Hk, Ha.
Qed.

Lemma X2_inserted_kind_shifts_later_codes_witness :
  exists d1 d2 : list (string * Z),
    length d1 = length [("AND", "And")] /\
    declared_constants
      (render {| kinds := ([("AND", "And")] ++ [("OR", "Or"); ("NOT", "Not")])%list |})
      = Some (d1 ++ d2)%list /\
    declared_constants
      (render {| kinds := ([("AND", "And")]
                             ++ ("XOR", "Xor") :: [("OR", "Or"); ("NOT", "Not")])%list |})
      = Some (d1 ++ ("XOR", -2 + Z.of_nat (length [("AND", "And")]))
                 :: ((fun d : string * Z => (fst d, snd d + 1)) <$> d2))%list.
Proof.
  apply (X2_inserted_kind_shifts_later_codes
           [("AND", "And")] [("OR", "Or"); ("NOT", "Not")] "XOR" "Xor");
    reflexivity.
Defined.

(** X3.  The codes of the declared constants are pairwise distinct, also
    when two constants bear the same name, and they are exactly the
    integers from -2 to [n - 3], where [n] is the number of entries. *)
Theorem X3_codes_distinct_and_contiguous (parser : KindsParser) :
  forallb is_identifier (dict_keys (kinds parser)) = true ->
  exists decls : list (string * Z),
    declared_constants (render parser) = Some decls /\
    NoDup (snd <$> decls) /\
    (forall c : Z,
        c ∈ snd <$> decls <-> -2 <= c <= Z.of_nat (length (kinds parser)) - 3).
Proof.
  intros Hid. exists (assign_codes (-2) (dict_keys (kinds parser))).
  split; [now apply declared_constants_render |].
  split; [apply assign_codes_NoDup |].
  intros c. rewrite list_elem_of_lookup. split.
  - intros [k Hk]. rewrite list_lookup_fmap, assign_codes_lookup in Hk.
    destruct (dict_keys (kinds parser) !! k) as [nm|] eqn:E; [| discriminate].
    apply lookup_lt_Some in E. unfold dict_keys in E. rewrite length_fmap in E.
    cbn in Hk. injection Hk as <-. lia.
  - intros Hc. exists (Z.to_nat (c + 2)).
    rewrite list_lookup_fmap, assign_codes_lookup.
    destruct (lookup_lt_is_Some_2 (dict_keys (kinds parser)) (Z.to_nat (c + 2)))
      as [nm Hnm].
    { unfold dict_keys. rewrite length_fmap. lia. }
    rewrite Hnm. cbn. f_equal. lia.
Qed.

Lemma X3_codes_distinct_and_contiguous_witness :
  exists decls : list (string * Z),
    declared_constants (render duplicated) = Some decls /\
    NoDup (snd <$> decls) /\
    (forall c : Z,
        c ∈ snd <$> decls <-> -2 <= c <= Z.of_nat (length (kinds duplicated)) - 3).
Proof. apply (X3_codes_distinct_and_contiguous duplicated). reflexivity. Defined.

(** X4.  The keys can be read back from the text: two mappings with
    identifier keys give the same text exactly when they have the same
    keys in the same order. *)
Theorem X4_text_determines_keys (p1 p2 : KindsParser) :
  forallb is_identifier (dict_keys (kinds p1)) = true ->
  forallb is_identifier (dict_keys (kinds p2)) = true ->
  render p1 = render p2 <-> dict_keys (kinds p1) = dict_keys (kinds p2).
Proof.
  intros H1 H2. split; [| apply render_keys_only].
  intros E.
  pose proof (declared_constants_render p1 H1) as D1.
  pose proof (declared_constants_render p2 H2) as D2.
  rewrite E, D2 in D1. injection D1 as D.
  rewrite <- (assign_codes_names (-2) (dict_keys (kinds p1))).
  rewrite <- (assign_codes_names (-2) (dict_keys (kinds p2))).
  now rewrite D.
Qed.

Lemma X4_text_determines_keys_witness :
  render sentinels = render sentinels <->
  dict_keys (kinds sentinels) = dict_keys (kinds sentinels).
Proof. apply (X4_text_determines_keys sentinels sentinels); reflexivity. Defined.

(** ** Keys that are not identifiers *)

(** X6.  Keys are copied into the text without escaping: an entry whose
    key holds a closing parenthesis, a comma and a newline is read back as
    two constants, the first with the code written in the key. *)
Theorem X6_key_is_not_escaped (a b name : string) (z : Z) :
  is_identifier a = true ->
  is_identifier b = true ->
  declared_constants
    (render {| kinds := [(a +:+ "(" +:+ str_int z +:+ ")," +:+ nl +:+ "  " +:+ b,
                          name)] |})
  = Some [(a, z); (b, -2)].
Proof.
  intros Ha Hb. rewrite render_closed_form. cbn [kinds]. unfold dict_keys.
  cbn [fmap list_fmap fst]. rewrite assign_codes_cons.
  replace (constants_text
             ((a +:+ "(" +:+ str_int z +:+ ")," +:+ nl +:+ "  " +:+ b, -2)
                :: assign_codes (-2 + 1) []))
    with (constants_text [(a, z); (b, -2)]).
  - apply declared_constants_generated. cbn [forallb fst]. now rewrite Ha, Hb.
  - unfold assign_codes. cbn [imap]. rewrite !constants_text_cons.
    unfold constant_line. cbn [fst snd]. now rewrite !append_assoc.
Qed.

Lemma X6_key_is_not_escaped_witness :
  declared_constants
    (render {| kinds := [("AND" +:+ "(" +:+ str_int 7 +:+ ")," +:+ nl +:+ "  " +:+ "OR",
                          "And")] |})
  = Some [("AND", 7); ("OR", -2)].
Proof. apply (X6_key_is_not_escaped "AND" "OR" "And" 7); reflexivity. Defined.

(** ** The lookup of the generated class *)

Lemma put_all_sound (vals : list Kind) (m0 : gmap Z Kind) (v : Z) (m : Kind) :
  fold_left (fun kindMap kind => <[getValue kind := kind]> kindMap) vals m0 !! v
    = Some m ->
  (m ∈ vals /\ value m = v) \/ m0 !! v = Some m.
Proof.
  revert m0. induction vals as [|x vals IH]; intros m0 H; [now right |].
  cbn [fold_left] in H. destruct (IH _ H) as [[Hin Hv] | Hm0].
  - left. split; [now right | exact Hv].
  - unfold getValue in Hm0. destruct (decide (value x = v)) as [E | Hne].
    + subst v. rewrite lookup_insert_eq in Hm0. injection Hm0 as <-.
      left. split; [left | reflexivity].
    + rewrite lookup_insert_ne in Hm0 by exact Hne. now right.
Qed.

Lemma put_all_complete (vals : list Kind) (m0 : gmap Z Kind) (v : Z) :
  (exists m, m ∈ vals /\ value m = v) \/ is_Some (m0 !! v) ->
  is_Some (fold_left (fun kindMap kind => <[getValue kind := kind]> kindMap)
             vals m0 !! v).
Proof.
  revert m0. induction vals as [|x vals IH]; intros m0 H.
  - destruct H as [(m & Hm & _) | H]; [now apply elem_of_nil in Hm | exact H].
  - cbn [fold_left]. apply IH. unfold getValue.
    destruct (decide (value x = v)) as [E | Hne].
    + right. subst v. rewrite lookup_insert_eq. now eexists.
    + destruct H as [(m & Hm & Hv) | H].
      * apply elem_of_cons in Hm as [-> | Hm]; [contradiction |].
        left. now exists m.
      * right. now rewrite lookup_insert_ne.
Qed.

(** X7.  For the class of any text of the generated shape, with whatever
    constants and codes: a constant returned by [fromInt v] is a declared
    constant whose value is [v]; [fromInt v] returns [null] only when no
    constant has the value [v]; and it throws only when [v] lies outside
    the values of [INTERNAL_KIND] and [LAST_KIND]. *)
Theorem X7_fromInt_is_sound (text : string) (C : Kind_class) (v : Z) :
  load text = Some C ->
  match fromInt C v with
  | Returns (Some m) => m ∈ Kind_values C /\ getValue m = v
  | Returns None => forall m : Kind, m ∈ Kind_values C -> getValue m <> v
  | Throws _ => v < value (INTERNAL_KIND C) \/ value (LAST_KIND C) < v
  end.
Proof.
  intros (decls & _ & _ & Hvals & _ & _ & Hmap)%load_inv. unfold fromInt.
  destruct (v <? value (INTERNAL_KIND C)) eqn:E1.
  { left. now apply Z.ltb_lt. }
  destruct (v >? value (LAST_KIND C)) eqn:E2.
  { right. rewrite Z.gtb_ltb in E2. now apply Z.ltb_lt. }
  cbn [orb]. rewrite Hmap, Hvals.
  destruct (static_init (values_of decls) !! v) as [m|] eqn:E.
  - destruct (put_all_sound _ _ _ _ E) as [[Hin Hv] | H0]; [now split |].
    now rewrite lookup_empty in H0.
  - intros m Hm Hv.
    destruct (put_all_complete (values_of decls) ∅ v) as [m' Hm'].
    + left. now exists m.
    + unfold static_init in E. congruence.
Qed.

Lemma X7_fromInt_is_sound_witness :
  match fromInt sentinels_class (-1) with
  | Returns (Some m) => m ∈ Kind_values sentinels_class /\ getValue m = -1
  | Returns None =>
      forall m : Kind, m ∈ Kind_values sentinels_class -> getValue m <> -1
  | Throws _ =>
      -1 < value (INTERNAL_KIND sentinels_class) \/
      value (LAST_KIND sentinels_class) < -1
  end.
Proof.
  apply (X7_fromInt_is_sound (render sentinels) sentinels_class (-1)).
  vm_compute. reflexivity.
Defined.

(** X8.  When the generated file defines a class, wherever
    [INTERNAL_KIND] and [LAST_KIND] stand in the mapping, at positions
    [lo] and [hi]: [fromInt v] returns, for every [v] from [lo - 2] to
    [hi - 2], the constant declared at position [v + 2], whose name is the
    key at that position, and never [null]; for every other [v] it throws
    with the message that names [v], [lo - 2] and [hi - 2]. *)
Theorem X8_fromInt_on_generated_class (parser : KindsParser) (C : Kind_class)
    (lo hi : nat) :
  forallb is_identifier (dict_keys (kinds parser)) = true ->
  load (render parser) = Some C ->
  dict_keys (kinds parser) !! lo = Some "INTERNAL_KIND" ->
  dict_keys (kinds parser) !! hi = Some "LAST_KIND" ->
  (forall v : Z,
      Z.of_nat lo - 2 <= v <= Z.of_nat hi - 2 ->
      exists kind : string,
        dict_keys (kinds parser) !! Z.to_nat (v + 2) = Some kind /\
        fromInt C v = Returns (Some (mkKind (Z.to_nat (v + 2)) kind v))) /\
  (forall v : Z,
      v < Z.of_nat lo - 2 \/ Z.of_nat hi - 2 < v ->
      fromInt C v =
        Throws ("Kind value " +:+ str_int v +:+ " is outside the valid range ["
                  +:+ str_int (Z.of_nat lo - 2) +:+ ","
                  +:+ str_int (Z.of_nat hi - 2) +:+ "]")).
Proof.
  intros Hid Hload Hlo Hhi.
  pose proof (loaded_keys_distinct parser C Hid Hload) as Hnd.
  pose proof (fun v => fromInt_generated parser lo hi Hid Hnd Hlo Hhi C v Hload)
    as Hfrom.
  split.
  - intros v Hv. pose proof (lookup_lt_Some _ _ _ Hhi) as Hlt.
    destruct (lookup_lt_is_Some_2 (dict_keys (kinds parser)) (Z.to_nat (v + 2)))
      as [kind Hkind]; [lia |].
    exists kind. split; [exact Hkind |].
    rewrite Hfrom.
    replace (v <? -2 + Z.of_nat lo) with false by (symmetry; apply Z.ltb_ge; lia).
    replace (v >? -2 + Z.of_nat hi) with false
      by (symmetry; rewrite Z.gtb_ltb; apply Z.ltb_ge; lia).
    cbn [orb]. pose proof (kindMap_generated parser _ _ Hkind) as Hmap.
    replace (-2 + Z.of_nat (Z.to_nat (v + 2))) with v in Hmap by lia.
    now rewrite Hmap.
  - intros v Hv. rewrite Hfrom.
    replace (-2 + Z.of_nat lo) with (Z.of_nat lo - 2) by lia.
    replace (-2 + Z.of_nat hi) with (Z.of_nat hi - 2) by lia.
    destruct (v <? Z.of_nat lo - 2) eqn:E1; [reflexivity |].
    destruct (v >? Z.of_nat hi - 2) eqn:E2; [reflexivity |].
    apply Z.ltb_ge in E1. rewrite Z.gtb_ltb in E2. apply Z.ltb_ge in E2. lia.
Qed.

Lemma X8_fromInt_on_generated_class_witness :
  (forall v : Z,
      Z.of_nat 1 - 2 <= v <= Z.of_nat 2 - 2 ->
      exists kind : string,
        dict_keys (kinds shifted) !! Z.to_nat (v + 2) = Some kind /\
        fromInt shifted_class v
          = Returns (Some (mkKind (Z.to_nat (v + 2)) kind v))) /\
  (forall v : Z,
      v < Z.of_nat 1 - 2 \/ Z.of_nat 2 - 2 < v ->
      fromInt shifted_class v =
        Throws ("Kind value " +:+ str_int v +:+ " is outside the valid range ["
                  +:+ str_int (Z.of_nat 1 - 2) +:+ ","
                  +:+ str_int (Z.of_nat 2 - 2) +:+ "]")).
Proof.
  apply (X8_fromInt_on_generated_class shifted shifted_class 1 2);
    [reflexivity | vm_compute; reflexivity | reflexivity | reflexivity].
Defined.

(** X9.  When the generated file defines a class and [LAST_KIND] is
    declared before [INTERNAL_KIND], [fromInt] throws for every
    integer. *)
Theorem X9_reversed_sentinels_reject_all (parser : KindsParser) (C : Kind_class)
    (lo hi : nat) (v : Z) :
  forallb is_identifier (dict_keys (kinds parser)) = true ->
  load (render parser) = Some C ->
  dict_keys (kinds parser) !! lo = Some "INTERNAL_KIND" ->
  dict_keys (kinds parser) !! hi = Some "LAST_KIND" ->
  (hi < lo)%nat ->
  exists message : string, fromInt C v = Throws message.
Proof.
  intros Hid Hload Hlo Hhi Hlt.
  pose proof (loaded_keys_distinct parser C Hid Hload) as Hnd.
  rewrite (fromInt_generated parser lo hi Hid Hnd Hlo Hhi C v Hload).
  destruct (v <? -2 + Z.of_nat lo) eqn:E1; [now eexists |].
  destruct (v >? -2 + Z.of_nat hi) eqn:E2; [now eexists |].
  apply Z.ltb_ge in E1. rewrite Z.gtb_ltb in E2. apply Z.ltb_ge in E2. lia.
Qed.

Lemma X9_reversed_sentinels_reject_all_witness :
  exists message : string, fromInt reversed_class (-1) = Throws message.
Proof.
  apply (X9_reversed_sentinels_reject_all reversed reversed_class 2 0 (-1));
    [reflexivity | vm_compute; reflexivity | reflexivity | reflexivity | lia].
Defined.

(** X10.  A generated file defines a class only if both [INTERNAL_KIND]
    and [LAST_KIND] are keys of the mapping and no key occurs twice. *)
Theorem X10_class_needs_both_sentinels (parser : KindsParser) (C : Kind_class) :
  forallb is_identifier (dict_keys (kinds parser)) = true ->
  load (render parser) = Some C ->
  "INTERNAL_KIND" ∈ dict_keys (kinds parser) /\
  "LAST_KIND" ∈ dict_keys (kinds parser) /\
  NoDup (dict_keys (kinds parser)).
Proof.
  intros Hid HC. pose proof (loaded_keys_distinct parser C Hid HC) as Hnd.
  destruct (load_inv _ _ HC) as (decls & Hd & _ & _ & Rlo & Rhi & _).
  rewrite (declared_constants_render _ Hid) in Hd. injection Hd as <-.
  apply resolve_Some in Rlo as [Mlo Nlo]. apply resolve_Some in Rhi as [Mhi Nhi].
  apply generated_member_inv in Mlo as [Klo _].
  apply generated_member_inv in Mhi as [Khi _].
  rewrite Nlo in Klo. rewrite Nhi in Khi.
  repeat split; [apply list_elem_of_lookup; eauto .. | exact Hnd].
Qed.

Lemma X10_class_needs_both_sentinels_witness :
  "INTERNAL_KIND" ∈ dict_keys (kinds shifted) /\
  "LAST_KIND" ∈ dict_keys (kinds shifted) /\
  NoDup (dict_keys (kinds shifted)).
Proof.
  apply (X10_class_needs_both_sentinels shifted shifted_class);
    [reflexivity | vm_compute; reflexivity].
Defined.

(** X11.  In the generated class, [Kind.values()] lists one constant per
    entry, in order: the constant at position [k] has the key at position
    [k] as its name and [k - 2] as its value. *)
Theorem X11_value_is_position_minus_two (parser : KindsParser) (C : Kind_class) :
  forallb is_identifier (dict_keys (kinds parser)) = true ->
  load (render parser) = Some C ->
  length (Kind_values C) = length (kinds parser) /\
  forall (k : nat) (m : Kind),
    Kind_values C !! k = Some m ->
    ordinal m = k /\
    dict_keys (kinds parser) !! k = Some (name m) /\
    getValue m = Z.of_nat k - 2.
Proof.
  intros Hid HC. destruct (load_inv _ _ HC) as (decls & Hd & _ & Hvals & _).
  rewrite (declared_constants_render _ Hid) in Hd. injection Hd as <-.
  rewrite Hvals. split.
  - unfold values_of. rewrite length_imap, assign_codes_length.
    unfold dict_keys. apply length_fmap.
  - intros k m Hk. rewrite values_of_lookup, assign_codes_lookup in Hk.
    destruct (dict_keys (kinds parser) !! k) as [nm|]; [| discriminate].
    cbn in Hk. injection Hk as <-. cbn [ordinal name getValue value].
    repeat split. lia.
Qed.

Lemma X11_value_is_position_minus_two_witness :
  length (Kind_values sentinels_class) = length (kinds sentinels) /\
  forall (k : nat) (m : Kind),
    Kind_values sentinels_class !! k = Some m ->
    ordinal m = k /\
    dict_keys (kinds sentinels) !! k = Some (name m) /\
    getValue m = Z.of_nat k - 2.
Proof.
  apply (X11_value_is_position_minus_two sentinels sentinels_class);
    [reflexivity | vm_compute; reflexivity].
Defined.

(** ** Files other than the target *)

Lemma gen_java_files (parser : KindsParser) (filename : string)
    (fs : gmap string string) (lg : list io_event) (flt : option io_fault) :
  files (snd (gen_java parser filename (World fs lg flt))) =
    match flt with
    | None => <[filename := render parser]> fs
    | Some OpenFails => fs
    | Some (WriteFails n) => <[filename := substring 0 n (render parser)]> fs
    end.
Proof.
  destruct flt as [[|n]|].
  - now rewrite gen_java_open_fails.
  - now rewrite gen_java_write_fails.
  - now rewrite gen_java_succeeds.
Qed.

Lemma gen_java_other_file (parser : KindsParser) (filename other : string)
    (fs : gmap string string) (lg : list io_event) (flt : option io_fault) :
  other <> filename ->
  files (snd (gen_java parser filename (World fs lg flt))) !! other = fs !! other.
Proof.
  intros Hne. rewrite gen_java_files.
  destruct flt as [[|n]|]; [reflexivity | |]; now apply lookup_insert_ne.
Qed.

(** X12.  Whether the run succeeds or fails, [gen_java] changes no file
    other than its target. *)
Theorem X12_other_files_untouched (parser : KindsParser) (filename other : string)
    (fs : gmap string string) (lg : list io_event) (flt : option io_fault) :
  other <> filename ->
  files (snd (gen_java parser filename (World fs lg flt))) !! other = fs !! other.
Proof. apply gen_java_other_file. Qed.

Lemma X12_other_files_untouched_witness :
  files (snd (gen_java and_or_not "Kind.java"
                (World {[ "Notes.txt" := "keep" ]} [] (Some (WriteFails 5)))))
    !! "Notes.txt"
  = ({[ "Notes.txt" := "keep" ]} : gmap string string) !! "Notes.txt".
Proof.
  apply (X12_other_files_untouched and_or_not "Kind.java" "Notes.txt").
  discriminate.
Defined.
